(** * The row-grouping plugin of the grid (grouping.row.plugin.ts)

    A shallow embedding of [GroupingRowPlugin]: the records and stores it
    reads, its event handlers as functions on an explicit grid state, and
    the properties of the handlers. *)

From stdpp Require Import gmap strings list fin_maps.

(** * Records and arrays *)

(** A row object.  The plugin is duck-typed: it probes the marker fields
    [PSEUDO_GROUP_ITEM] (through [isGrouping]), [GROUP_EXPANDED] and
    [PSEUDO_GROUP_ITEM_VALUE] on any row, so every row has them here:
    [group_item] says whether the marker is defined, [group_expanded] is the
    truthiness of the expanded field, [group_value] is the group key value
    as a property key.  [group_depth] and [group_children] are the depth and
    the direct child indices a header carries in the data model; [fields]
    holds the application data read by [item[key]]. *)
Record DataType := mkDataType {
  group_item : bool;
  group_value : string;
  group_expanded : bool;
  group_depth : nat;
  group_children : list nat;
  fields : gmap string string;
}.

(** An array element: reading an array out of range gives [undefined],
    which is [None]. *)
Abbreviation slot := (option DataType).

(** [source[i]] *)
Definition nth_slot (source : list slot) (i : nat) : slot :=
  default None (source !! i).

(** [source[items[i]]]: an undefined index reads [undefined]. *)
Definition nth_item (source : list slot) (items : list nat) (i : nat) : slot :=
  match items !! i with
  | Some p => nth_slot source p
  | None => None
  end.

(** Modelled from the spec: [isGrouping] of grouping.service (not among the
    sources).  A record is a group header when it carries the group marker;
    an absent record is not one. *)
Definition isGrouping (model : slot) : bool :=
  match model with
  | Some r => group_item r
  | None => false
  end.

(** [model[GROUP_EXPANDED]] as a condition; [None] when [model] is
    undefined, where the property read throws. *)
Definition expanded_of (model : slot) : option bool :=
  group_expanded <$> model.

(** * The row store *)

Definition TRIMMED_GROUPING : string := "grouping"%string.

(** The keys of the row store the plugin reads and writes: [source],
    [items], [proxyItems], [trimmed] (one hidden-row map per namespace) and
    the grouping depth. *)
Record RowStore := mkRowStore {
  source : list slot;
  items : list nat;
  proxyItems : list nat;
  trimmed : gmap string (gmap nat bool);
  groupingDepth : nat;
}.

(** The entries hidden under the grouping namespace; a namespace that was
    never published hides nothing. *)
Definition groupingTrimmed (rs : RowStore) : gmap nat bool :=
  default ∅ (trimmed rs !! TRIMMED_GROUPING).

(** * getSource *)

Record SourceGather := mkSourceGather {
  sg_source : list slot;
  sg_prevExpanded : gmap string bool;
}.

(** The callback of [items.reduce] in [getSource]. *)
Definition gather_step (src : list slot) (withoutGrouping : bool)
    (result : SourceGather) (i : nat) : SourceGather :=
  let model := nth_slot src i in
  if negb withoutGrouping then
    mkSourceGather (sg_source result ++ [model]) (sg_prevExpanded result)
  else if negb (isGrouping model) then
    mkSourceGather (sg_source result ++ [model]) (sg_prevExpanded result)
  else
    match model with
    | Some r =>
        if group_expanded r then
          mkSourceGather (sg_source result)
            (<[group_value r := true]> (sg_prevExpanded result))
        else result
    | None => result
    end.

Definition gather (src : list slot) (withoutGrouping : bool)
    (idx : list nat) : SourceGather :=
  foldl (gather_step src withoutGrouping) (mkSourceGather [] ∅) idx.

Definition getSource (rs : RowStore) (withoutGrouping : bool) : SourceGather :=
  gather (source rs) withoutGrouping (proxyItems rs).

(** The records of the store in proxy order. *)
Definition proxied (rs : RowStore) : list slot :=
  nth_slot (source rs) <$> proxyItems rs.

(** [m] is an expanded group header with key value [v]. *)
Definition expanded_header (v : string) (m : slot) : Prop :=
  ∃ r, m = Some r ∧ group_item r = true ∧ group_expanded r = true
       ∧ group_value r = v.

(** * Focus and drag events *)

(** A cancellable event: the detail and the [defaultPrevented] flag. *)
Record FocusEvent := mkFocusEvent {
  focus_model : slot;
  focus_prevented : bool;
}.

Definition onFocus (e : FocusEvent) : FocusEvent :=
  if isGrouping (focus_model e) then mkFocusEvent (focus_model e) true
  else e.

Record DragEvent := mkDragEvent {
  drag_from : nat;
  drag_to : nat;
  drag_prevented : bool;
}.

(** The loop of [onDrag], [n] iterations from position [i]: [true] when it
    leaves through [preventDefault]. *)
Fixpoint drag_scan (src : list slot) (rowItems : list nat) (i n : nat) : bool :=
  match n with
  | 0 => false
  | S n' =>
      if isGrouping (nth_item src rowItems i) then true
      else drag_scan src rowItems (S i) n'
  end.

(** [onDrag]: [isDown] is [to - from >= 0]; the loop runs from the lower
    position up to, and without, the upper one.  The handler writes nothing
    to the store, which it returns as it got it. *)
Definition onDrag (rs : RowStore) (e : DragEvent) : RowStore * DragEvent :=
  let isDown := bool_decide (drag_from e ≤ drag_to e) in
  let src := sg_source (getSource rs false) in
  let rowItems := items rs in
  let i := if isDown then drag_from e else drag_to e in
  let end_ := if isDown then drag_to e else drag_from e in
  if drag_scan src rowItems i (end_ - i) then
    (rs, mkDragEvent (drag_from e) (drag_to e) true)
  else (rs, e).

(** * The filter hook *)

(** [beforeFilterApply]: every key of [itemsToFilter] is visited once and
    only its own entry is assigned. *)
Definition beforeFilterApply (itemsToFilter : gmap nat bool)
    (src : list slot) : gmap nat bool :=
  map_imap (λ index b,
    Some (if b && isGrouping (nth_slot src index) then false else b))
    itemsToFilter.

(** [itemsToFilter[index]] read as a condition: is the row filtered out. *)
Definition filtered_out (itemsToFilter : gmap nat bool) (index : nat) : bool :=
  default false (itemsToFilter !! index).

(** * Columns *)

(** A column: its property name and whether it carries the
    grouping-indicator flag [PSEUDO_GROUP_COLUMN]. *)
Record Column := mkColumn {
  col_prop : string;
  pseudo_group_column : bool;
}.

(** Modelled from the spec: [isGroupingColumn] of grouping.service (not
    among the sources): the column carries the grouping-indicator flag. *)
Definition isGroupingColumn (c : Column) : bool := pseudo_group_column c.

(** The column areas. *)
Inductive ColType := colPinStart | colRegular | colPinEnd.

(** Modelled from the spec: the constant [columnTypes] of store/storeTypes
    (not among the sources): the areas in their fixed priority order, the
    pinned-start area first, then the regular area, then the pinned-end
    area. *)
Definition columnTypes : list ColType := [colPinStart; colRegular; colPinEnd].

(** The columns of every area; [columns[type]] of a [ColumnCollection] and
    the stores behind [columnProvider.getColumns]. *)
Record ColumnCollection := mkColumnCollection {
  pinStart : list Column;
  regular : list Column;
  pinEnd : list Column;
}.

Definition getColumns (cc : ColumnCollection) (t : ColType) : list Column :=
  match t with
  | colPinStart => pinStart cc
  | colRegular => regular cc
  | colPinEnd => pinEnd cc
  end.

(** The columns of area [t] after their objects were updated in place. *)
Definition withColumns (cc : ColumnCollection) (t : ColType)
    (cols : list Column) : ColumnCollection :=
  match t with
  | colPinStart => mkColumnCollection cols (regular cc) (pinEnd cc)
  | colRegular => mkColumnCollection (pinStart cc) cols (pinEnd cc)
  | colPinEnd => mkColumnCollection (pinStart cc) (regular cc) cols
  end.

(** [setColumnGrouping]: [Some] of the updated columns when it returns
    [true], [None] when it returns [false] and touches nothing. *)
Definition setColumnGrouping (cols : list Column) : option (list Column) :=
  match cols with
  | c :: rest => Some (mkColumn (col_prop c) true :: rest)
  | [] => None
  end.

(** The loop of [setColumns] over the areas [types], with its [break]. *)
Fixpoint setColumns_loop (types : list ColType) (cc : ColumnCollection)
    : ColumnCollection :=
  match types with
  | [] => cc
  | t :: rest =>
      match setColumnGrouping (getColumns cc t) with
      | Some cols => withColumns cc t cols
      | None => setColumns_loop rest cc
      end
  end.

Definition setColumns (cc : ColumnCollection) : ColumnCollection :=
  setColumns_loop columnTypes cc.

(** * Options and services *)

(** The expansion options handed to the Builder: the expansion memory and
    the default-expanded policy, each of them optional.  An options object
    can also carry the key [prevExpanded] with the value [undefined]; it
    reads like an absent key but counts as a key when the object is spread:
    [prevExpanded_undefined] says so. *)
Record ExpandedOptions := ExpandedOptionsObject {
  prevExpanded : option (gmap string bool);
  defaultExpanded : option bool;
  prevExpanded_undefined : bool;
}.

(** An options object in which the key [prevExpanded], when it is there,
    holds a value. *)
Definition mkExpandedOptions (memory : option (gmap string bool))
    (policy : option bool) : ExpandedOptions :=
  ExpandedOptionsObject memory policy false.

(** [GroupingOptions]: the grouping keys [props] and the expansion options
    that are spread into the Builder's options. *)
Record GroupingOptions := mkGroupingOptions {
  props : option (list string);
  expandedOptions : ExpandedOptions;
}.

(** What [doExpand] and [doCollapse] return: the patch [trimmed], the
    optional [items], and [er_source], the sequence they were given as they
    leave it (they set the expanded field of its records in place). *)
Record ExpandedResults := mkExpandedResults {
  er_trimmed : gmap nat bool;
  er_items : option (list nat);
  er_source : list slot;
}.

(** What [gatherGrouping] returns. *)
Record GroupingResult := mkGroupingResult {
  sourceWithGroups : list slot;
  depth : nat;
  gr_trimmed : gmap nat bool;
}.

(** The group path function the plugin gives the Builder. *)
Definition KeyFn := DataType → list (option string).

(** The services the plugin imports and that are not among the sources:
    the expand and collapse services and the Builder.  The handlers are
    stated over any implementation of them. *)
Record Services := mkServices {
  doExpand : nat → nat → list slot → list nat → ExpandedResults;
  doCollapse : nat → list slot → ExpandedResults;
  gatherGrouping : list slot → KeyFn → ExpandedOptions → GroupingResult;
}.

(** * The grid *)

(** What the plugin reaches through [this.revogrid], [this.providers] and
    its own fields: the row store, the column stores, the focused row, the
    [grouping] property of the grid element, the plugin's [options], whether
    its listeners are attached, and the areas [refreshByType] was called
    for. *)
Record Grid := mkGrid {
  row : RowStore;
  columns : ColumnCollection;
  focus : option nat;
  hostGrouping : option GroupingOptions;
  options : option GroupingOptions;
  subscribed : bool;
  refreshed : list ColType;
}.

Definition withRow (f : RowStore → RowStore) (g : Grid) : Grid :=
  mkGrid (f (row g)) (columns g) (focus g) (hostGrouping g) (options g)
    (subscribed g) (refreshed g).

Definition withColumnStore (cc : ColumnCollection) (g : Grid) : Grid :=
  mkGrid (row g) cc (focus g) (hostGrouping g) (options g) (subscribed g)
    (refreshed g).

Definition withOptions (o : GroupingOptions) (g : Grid) : Grid :=
  mkGrid (row g) (columns g) (focus g) (hostGrouping g) (Some o)
    (subscribed g) (refreshed g).

(** [clearSubscriptions] and [subscribe]. *)
Definition withSubscribed (b : bool) (g : Grid) : Grid :=
  mkGrid (row g) (columns g) (focus g) (hostGrouping g) (options g) b
    (refreshed g).

(** [rowStore.set('source', data)], the body of [setSource]. *)
Definition setSource (data : list slot) (g : Grid) : Grid :=
  withRow (λ rs, mkRowStore data (items rs) (proxyItems rs) (trimmed rs)
                   (groupingDepth rs)) g.

(** Modelled from the spec: [getPhysical] of the row store (not among the
    sources): the physical index the virtual order lists at a display
    position. *)
Definition getPhysical (rs : RowStore) (virtualIndex : nat) : option nat :=
  items rs !! virtualIndex.

(** Modelled from the spec: [setItems] of the row store (not among the
    sources): writes the virtual-order index list. *)
Definition setItems (its : list nat) (g : Grid) : Grid :=
  withRow (λ rs, mkRowStore (source rs) its (proxyItems rs) (trimmed rs)
                   (groupingDepth rs)) g.

(** Modelled from the spec: [revogrid.addTrimmed] (not among the sources):
    publishes a hidden-row map under the namespace it is given. *)
Definition addTrimmed (m : gmap nat bool) (ns : string) (g : Grid) : Grid :=
  withRow (λ rs, mkRowStore (source rs) (items rs) (proxyItems rs)
                   (<[ns := m]> (trimmed rs)) (groupingDepth rs)) g.

(** Modelled from the spec: [revogrid.clearFocus] (not among the sources):
    no record is focused afterwards. *)
Definition clearFocus (g : Grid) : Grid :=
  mkGrid (row g) (columns g) None (hostGrouping g) (options g) (subscribed g)
    (refreshed g).

(** Modelled from the spec: [dataProvider.setData] (not among the sources).
    The store is a key-value store with get/set semantics: the sequence is
    written back as the source and the virtual order starts again as the
    positions of the new sequence; the depth is published when one is
    given.  The hidden-row map is not a part of the write, and nothing the
    spec says of the store depends on the flag [silent], which is handed
    on. *)
Definition setData (data : list slot) (grouping : option nat) (silent : bool)
    (g : Grid) : Grid :=
  withRow (λ rs,
    mkRowStore data (seq 0 (length data)) (seq 0 (length data))
      (trimmed rs) (default (groupingDepth rs) grouping)) g.

(** Modelled from the spec: [dataProvider.setGrouping] (not among the
    sources): publishes the depth. *)
Definition setGroupingDepth (d : nat) (g : Grid) : Grid :=
  withRow (λ rs, mkRowStore (source rs) (items rs) (proxyItems rs)
                   (trimmed rs) d) g.

(** Modelled from the spec: [columnProvider.refreshByType] (not among the
    sources): a refresh notification for one area. *)
Definition refreshByType (t : ColType) (g : Grid) : Grid :=
  mkGrid (row g) (columns g) (focus g) (hostGrouping g) (options g)
    (subscribed g) (refreshed g ++ [t]).

(** * The handlers that write *)

(** [hasProps]: [options?.props && options?.props?.length]. *)
Definition hasProps (g : Grid) : bool :=
  match options g with
  | Some o => match props o with
              | Some (_ :: _) => true
              | _ => false
              end
  | None => false
  end.

(** [item => this.options?.props.map(key => item[key])] *)
Definition keyFn (g : Grid) : KeyFn :=
  λ item, match options g ≫= props with
          | Some ps => (λ key, fields item !! key) <$> ps
          | None => []
          end.

(** [{ prevExpanded, ...options }]: the keys of [options] are written over
    the gathered memory, so a [prevExpanded] key among them replaces it,
    also when its value is [undefined]. *)
Definition mergeOptions (gathered : gmap string bool)
    (o : option ExpandedOptions) : ExpandedOptions :=
  match o with
  | None => mkExpandedOptions (Some gathered) None
  | Some o =>
      match prevExpanded o with
      | Some p => mkExpandedOptions (Some p) (defaultExpanded o)
      | None =>
          if prevExpanded_undefined o
          then ExpandedOptionsObject None (defaultExpanded o) true
          else mkExpandedOptions (Some gathered) (defaultExpanded o)
      end
  end.

(** [onExpand].  [None] is the TypeError of reading the expanded field of
    an undefined model, which happens before any write. *)
Definition onExpand (svc : Services) (g : Grid) (virtualIndex : nat)
    : option Grid :=
  let rowStore := row g in
  let src := sg_source (getSource rowStore false) in
  let newTrimmed := groupingTrimmed rowStore in
  match getPhysical rowStore virtualIndex with
  | None => None
  | Some i =>
      match nth_slot src i with
      | None => None
      | Some model =>
          if negb (group_expanded model) then
            let res := doExpand svc i virtualIndex src (items rowStore) in
            let newTrimmed := er_trimmed res ∪ newTrimmed in
            let g1 := match er_items res with
                      | Some its => setItems its g
                      | None => g
                      end in
            Some (addTrimmed newTrimmed TRIMMED_GROUPING
                    (setSource (er_source res) g1))
          else
            let res := doCollapse svc i src in
            let newTrimmed := er_trimmed res ∪ newTrimmed in
            Some (addTrimmed newTrimmed TRIMMED_GROUPING
                    (setSource (er_source res) (clearFocus g)))
      end
  end.

(** [doSourceUpdate] *)
Definition doSourceUpdate (svc : Services) (opts : option ExpandedOptions)
    (g : Grid) : Grid :=
  if negb (hasProps g) then g
  else
    let sg := getSource (row g) true in
    let res := gatherGrouping svc (sg_source sg) (keyFn g)
                 (mergeOptions (sg_prevExpanded sg) opts) in
    addTrimmed (gr_trimmed res) TRIMMED_GROUPING
      (setData (sourceWithGroups res) (Some (depth res)) true g).

(** [onDataSet]: the event detail carries the incoming source, which the
    handler replaces; the detail comes back with the grid. *)
Definition onDataSet (svc : Services) (data : option (list slot)) (g : Grid)
    : Grid * option (list slot) :=
  match data with
  | Some (s :: l) =>
      if negb (hasProps g) then (g, data)
      else
        let src := List.filter (λ s, negb (isGrouping s)) (s :: l) in
        let expanded := match hostGrouping g with
                        | Some o => expandedOptions o
                        | None => mkExpandedOptions None None
                        end in
        let res := gatherGrouping svc src (keyFn g) expanded in
        (addTrimmed (gr_trimmed res) TRIMMED_GROUPING
           (setGroupingDepth (depth res) g),
         Some (sourceWithGroups res))
  | _ => (g, data)
  end.

(** The callback of [cols.forEach] in [clearGrouping]: the flag is
    deleted from a column that carries it. *)
Definition unflag (c : Column) : Column :=
  if isGroupingColumn c then mkColumn (col_prop c) false else c.

(** The callback of [columnTypes.forEach] in [clearGrouping]. *)
Definition clear_type (g : Grid) (t : ColType) : Grid :=
  let cols := getColumns (columns g) t in
  let deleted := existsb isGroupingColumn cols in
  let cols' := unflag <$> cols in
  let g' := withColumnStore (withColumns (columns g) t cols') g in
  if deleted then refreshByType t g' else g'.

(** [clearGrouping] *)
Definition clearGrouping (g : Grid) : Grid :=
  let g1 := foldl clear_type g columnTypes in
  let src := sg_source (getSource (row g1) true) in
  setData src None false g1.

(** The loop over the areas at the end of [setGrouping], with its
    [break]. *)
Fixpoint flag_loop (types : list ColType) (g : Grid) : Grid :=
  match types with
  | [] => g
  | t :: rest =>
      match setColumnGrouping (getColumns (columns g) t) with
      | Some cols =>
          refreshByType t (withColumnStore (withColumns (columns g) t cols) g)
      | None => flag_loop rest g
      end
  end.

(** [!options.props || !Object.keys(options.props).length] *)
Definition noProps (o : GroupingOptions) : bool :=
  match props o with
  | Some (_ :: _) => false
  | _ => true
  end.

(** [setGrouping] *)
Definition setGrouping (svc : Services) (o : GroupingOptions) (g : Grid)
    : Grid :=
  let g1 := withOptions o (withSubscribed false g) in
  if noProps o then clearGrouping g1
  else
    let src := sg_source (getSource (row g1) false) in
    let g2 := match src with
              | [] => g1
              | _ :: _ => doSourceUpdate svc (Some (expandedOptions o)) g1
              end in
    withSubscribed true (flag_loop columnTypes g2).

(** * The services as the spec describes them

    The expand and collapse services and the Builder are not among the
    sources.  The handlers above take them as a parameter; the definitions
    of this module follow the spec's description of them and serve to run
    the handlers on the spec's scenarios. *)
Module SpecServices.

(** Sets the expanded field of the record at [i]. *)
Definition set_expanded (b : bool) (i : nat) (src : list slot) : list slot :=
  alter (fmap (λ r, mkDataType (group_item r) (group_value r) b
                      (group_depth r) (group_children r) (fields r))) i src.

(** The indices below the headers and records [idx]: the indices
    themselves and, through the child lists of the headers among them,
    everything beneath. *)
Fixpoint flatten (fuel : nat) (src : list slot) (idx : list nat) : list nat :=
  match fuel with
  | 0 => idx
  | S fuel' =>
      concat ((λ j, j :: match nth_slot src j with
                         | Some r => if group_item r
                                     then flatten fuel' src (group_children r)
                                     else []
                         | None => []
                         end) <$> idx)
  end.

Definition patch_of (b : bool) (idx : list nat) : gmap nat bool :=
  list_to_map ((λ j, (j, b)) <$> idx).

(** Modelled from the spec: the collapse service [doCollapse] (not among
    the sources).  It sets the header collapsed and hides the header's full
    set of descendants, whatever their own expanded state; on a record that
    is no header it changes nothing. *)
Definition doCollapse (i : nat) (src : list slot) : ExpandedResults :=
  match nth_slot src i with
  | Some r =>
      if group_item r then
        mkExpandedResults
          (patch_of true (flatten (length src) src (group_children r)))
          None (set_expanded false i src)
      else mkExpandedResults ∅ None src
  | None => mkExpandedResults ∅ None src
  end.

(** Modelled from the spec: the expand service [doExpand] (not among the
    sources).  It sets the header expanded and un-hides its direct children
    only; the direct children the virtual order lacks are put right after
    the header's position, in their order, and the new order is returned;
    on a record that is no header it changes nothing. *)
Definition doExpand (i virtualIndex : nat) (src : list slot)
    (rowItems : list nat) : ExpandedResults :=
  match nth_slot src i with
  | Some r =>
      if group_item r then
        let missing :=
          List.filter (λ j, negb (bool_decide (j ∈ rowItems)))
            (group_children r) in
        mkExpandedResults
          (patch_of false (group_children r))
          (match missing with
           | [] => None
           | _ :: _ => Some (take (S virtualIndex) rowItems ++ missing
                             ++ drop (S virtualIndex) rowItems)
           end)
          (set_expanded true i src)
      else mkExpandedResults ∅ None src
  | None => mkExpandedResults ∅ None src
  end.

(** The expanded state of a new header with key value [v]: the state the
    memory records for [v], else the configured default, else collapsed. *)
Definition header_expanded (opts : ExpandedOptions) (v : string) : bool :=
  match prevExpanded opts ≫= (λ m, m !! v) with
  | Some b => b
  | None => default false (defaultExpanded opts)
  end.

Definition key_string (k : option string) : string :=
  default "undefined"%string k.

Fixpoint common_prefix (a b : list (option string)) : nat :=
  match a, b with
  | x :: a', y :: b' =>
      if bool_decide (x = y) then S (common_prefix a' b') else 0
  | _, _ => 0
  end.

(** One step of the Builder's scan: the levels of the open path that no
    longer match are closed, a header is opened for each new level right
    before the record, and the record follows. *)
Definition scan_step (keyOf : KeyFn) (opts : ExpandedOptions)
    (acc : list (option string) * list slot) (s : slot)
    : list (option string) * list slot :=
  let path := match s with Some r => keyOf r | None => [] end in
  let k := common_prefix acc.1 path in
  let headers :=
    imap (λ j key, Some (mkDataType true (key_string key)
                           (header_expanded opts (key_string key))
                           (k + j) [] ∅))
      (drop k path) in
  (path, acc.2 ++ headers ++ [s]).

(** The nesting level of every element: a header's depth, and one more
    than the depth of the header before it for a data record. *)
Fixpoint levels (last : nat) (l : list slot) : list nat :=
  match l with
  | [] => []
  | s :: l' =>
      match s with
      | Some r => if group_item r
                  then group_depth r :: levels (S (group_depth r)) l'
                  else last :: levels last l'
      | None => last :: levels last l'
      end
  end.

(** The levels right after a header of depth [d] that lie beneath it. *)
Fixpoint beneath (d : nat) (lv : list nat) : list nat :=
  match lv with
  | l :: lv' => if bool_decide (d < l) then l :: beneath d lv' else []
  | [] => []
  end.

(** The indices beneath the header at [i], and its direct children among
    them. *)
Definition span (lv : list nat) (i : nat) : list (nat * nat) :=
  match lv !! i with
  | Some d => imap (λ k l, (S i + k, l)) (beneath d (drop (S i) lv))
  | None => []
  end.

Definition children_at (lv : list nat) (i : nat) : list nat :=
  match lv !! i with
  | Some d => (List.filter (λ p, bool_decide (p.2 = S d)) (span lv i)).*1
  | None => []
  end.

Definition hidden_at (lv : list nat) (i : nat) (s : slot) : list nat :=
  match s with
  | Some r => if group_item r && negb (group_expanded r)
              then (span lv i).*1 else []
  | None => []
  end.

(** Modelled from the spec: the Builder [gatherGrouping] (not among the
    sources).  It scans the records in their order, puts every header
    before the first record of its group, gives each header its child
    list, returns the deepest path length as the depth, and hides all that
    lies beneath a collapsed header. *)
Definition gatherGrouping (records : list slot) (keyOf : KeyFn)
    (opts : ExpandedOptions) : GroupingResult :=
  let out := (foldl (scan_step keyOf opts) ([], []) records).2 in
  let lv := levels 0 out in
  let withChildren :=
    imap (λ i s, match s with
                 | Some r =>
                     if group_item r then
                       Some (mkDataType true (group_value r)
                               (group_expanded r) (group_depth r)
                               (children_at lv i) (fields r))
                     else s
                 | None => s
                 end) out in
  mkGroupingResult withChildren
    (foldr max 0 ((λ s, match s with
                        | Some r => length (keyOf r)
                        | None => 0
                        end) <$> records))
    (patch_of true (concat (imap (hidden_at lv) out))).

Definition services : Services :=
  mkServices doExpand doCollapse gatherGrouping.

End SpecServices.

(** * The spec's scenarios *)

Module Scenario.

Definition region : string := "region"%string.

Definition rec (r v : string) : slot :=
  Some (mkDataType false ""%string false 0 []
          (<[region := r]> (<["v"%string := v]> ∅))).

Definition header (v : string) (exp : bool) (ch : list nat) : slot :=
  Some (mkDataType true v exp 0 ch ∅).

Definition E1 := rec "E" "1".
Definition E2 := rec "E" "2".
Definition W3 := rec "W" "3".

(** Scenario A: three records grouped by region. *)
Definition flat : list slot := [E1; E2; W3].

Definition grouped : list slot :=
  [header "E" true [1; 2]; E1; E2; header "W" true [4]; W3].

Definition byRegion (exp : option bool) : GroupingOptions :=
  mkGroupingOptions (Some [region]) (mkExpandedOptions None exp).

Definition noColumns : ColumnCollection := mkColumnCollection [] [] [].

(** The grid that holds Scenario A after grouping, nothing focused. *)
Definition gridA : Grid :=
  mkGrid (mkRowStore grouped [0; 1; 2; 3; 4] [0; 1; 2; 3; 4]
            (<[TRIMMED_GROUPING := ∅]> ∅) 1)
    noColumns None None (Some (byRegion (Some true))) true [].

(** The group key of every element, for reading a sequence. *)
Definition regions (l : list slot) : list (option string) :=
  (λ s : slot, s ≫= (λ r, fields r !! region)) <$> l.

Definition withFocus (f : option nat) (g : Grid) : Grid :=
  mkGrid (row g) (columns g) f (hostGrouping g) (options g) (subscribed g)
    (refreshed g).

(** Scenario A with the record of group W focused. *)
Definition gridFocused : Grid := withFocus (Some 4) gridA.

(** Two data records whose proxy order is not their physical order. *)
Definition gridPermuted : Grid :=
  mkGrid (mkRowStore [E1; W3] [0; 1] [1; 0] ∅ 0)
    noColumns None None (Some (byRegion None)) true [].

(** Scenario C: the records of Scenario A, group E collapsed, after a sort
    by [v] descending has reordered the proxy items. *)
Definition gridSorted : Grid :=
  mkGrid (mkRowStore
            [header "E" false [1; 2]; E1; E2; header "W" true [4]; W3]
            [0; 3; 4] [3; 4; 0; 2; 1]
            (<[TRIMMED_GROUPING := <[1 := true]> (<[2 := true]> ∅)]> ∅) 1)
    noColumns None None (Some (byRegion None)) true [].

(** Scenario A with two regular columns, none of them flagged, and with
    the second of them flagged. *)
Definition gridColumns : Grid :=
  withColumnStore
    (mkColumnCollection [] [mkColumn "a" false; mkColumn "b" false] [])
    gridA.

Definition gridStaleFlag : Grid :=
  withColumnStore
    (mkColumnCollection [] [mkColumn "a" false; mkColumn "b" true] [])
    gridA.

(** Scenario A with a filter namespace beside the grouping one. *)
Definition gridFiltered : Grid :=
  withRow (λ rs, mkRowStore (source rs) (items rs) (proxyItems rs)
                   (<["filter"%string := <[2 := true]> ∅]> (trimmed rs))
                   (groupingDepth rs)) gridA.

Definition noKeys : GroupingOptions :=
  mkGroupingOptions None (mkExpandedOptions None None).

End Scenario.

(** * The vocabulary of the properties *)

(** A group header at a row-items position strictly between the two
    positions of a reorder, read in the store's source. *)
Definition header_strictly_between (rs : RowStore) (from to : nat) : Prop :=
  ∃ p, from `min` to < p < from `max` to
       ∧ isGrouping (nth_item (source rs) (items rs) p) = true.

Definition all_columns (cc : ColumnCollection) : list Column :=
  pinStart cc ++ regular cc ++ pinEnd cc.

(** How many columns, over all areas, carry the indicator flag. *)
Definition flag_count (cc : ColumnCollection) : nat :=
  length (List.filter isGroupingColumn (all_columns cc)).

(** The first area, in priority order, that has a column. *)
Definition first_area (cc : ColumnCollection) : option ColType :=
  List.find (λ t, match getColumns cc t with [] => false | _ :: _ => true end)
    columnTypes.



(** * Properties of getSource *)

Lemma gather_snoc src wg l i :
  gather src wg (l ++ [i]) = gather_step src wg (gather src wg l) i.
Proof. unfold gather. by rewrite foldl_app. Qed.

(** With grouping kept, the gathered source is the store in proxy order. *)
Lemma gather_all src l :
  sg_source (gather src false l) = nth_slot src <$> l
  ∧ sg_prevExpanded (gather src false l) = ∅.
Proof.
  induction l as [|i l [IHs IHp]] using rev_ind; [done|].
  rewrite gather_snoc, fmap_app. unfold gather_step. simpl.
  by rewrite IHs, IHp.
Qed.

Lemma getSource_all rs : sg_source (getSource rs false) = proxied rs.
Proof. apply gather_all. Qed.

Lemma not_expanded_header_data v m :
  isGrouping m = false → ¬ expanded_header v m.
Proof.
  intros Hm (r & -> & Hg & _). simpl in Hm. congruence.
Qed.

Lemma gather_without src l :
  sg_source (gather src true l)
    = List.filter (λ m, negb (isGrouping m)) (nth_slot src <$> l)
  ∧ ∀ v,
      (sg_prevExpanded (gather src true l) !! v = Some true
       ∨ sg_prevExpanded (gather src true l) !! v = None)
      ∧ (sg_prevExpanded (gather src true l) !! v = Some true
         ↔ ∃ m, m ∈ nth_slot src <$> l ∧ expanded_header v m).
Proof.
  induction l as [|i l [IHs IHp]] using rev_ind.
  - split; [done|]. intros v. split; [by right|].
    split; [done|]. intros (m & Hm & _). by apply elem_of_nil in Hm.
  - rewrite gather_snoc, fmap_app, List.filter_app. unfold gather_step.
    cbn [negb]. destruct (isGrouping (nth_slot src i)) eqn:Hg; cbn [negb].
    + cbn [fmap list_fmap List.filter app]. rewrite Hg. cbn [negb].
      rewrite app_nil_r.
      destruct (nth_slot src i) as [r|] eqn:Hr; [|done]. simpl in Hg.
      destruct (group_expanded r) eqn:He; cbn [sg_source sg_prevExpanded].
      * split; [done|]. intros v. destruct (IHp v) as [IHv IHiff].
        destruct (decide (group_value r = v)) as [<-|Hne].
        -- rewrite lookup_insert_eq. split; [by left|]. split; [|done].
           intros _. exists (Some r). split.
           ++ apply elem_of_app. right. by apply list_elem_of_singleton.
           ++ by exists r.
        -- rewrite lookup_insert_ne by done. split; [done|].
           rewrite IHiff. split.
           ++ intros (m & Hm & Hx). exists m. split; [|done].
              apply elem_of_app. by left.
           ++ intros (m & Hm & Hx). apply elem_of_app in Hm as [Hm|Hm].
              ** by exists m.
              ** apply list_elem_of_singleton in Hm as ->.
                 destruct Hx as (r' & [= <-] & _ & _ & Hv). done.
      * split; [done|]. intros v. destruct (IHp v) as [IHv IHiff].
        split; [done|]. rewrite IHiff. split.
        -- intros (m & Hm & Hx). exists m. split; [|done].
           apply elem_of_app. by left.
        -- intros (m & Hm & Hx). apply elem_of_app in Hm as [Hm|Hm].
           ++ by exists m.
           ++ apply list_elem_of_singleton in Hm as ->.
              destruct Hx as (r' & [= <-] & _ & He' & _). congruence.
    + cbn [sg_source sg_prevExpanded fmap list_fmap List.filter app].
      rewrite Hg. cbn [negb]. split; [by rewrite IHs|].
      intros v. destruct (IHp v) as [IHv IHiff]. split; [done|].
      rewrite IHiff. split.
      * intros (m & Hm & Hx). exists m. split; [|done].
        apply elem_of_app. by left.
      * intros (m & Hm & Hx). apply elem_of_app in Hm as [Hm|Hm].
        -- by exists m.
        -- apply list_elem_of_singleton in Hm as ->.
           by apply not_expanded_header_data in Hx.
Qed.


Lemma getSource_memory (rs : RowStore) (v : string) :
  (sg_prevExpanded (getSource rs true) !! v = Some true
   ↔ ∃ m, m ∈ proxied rs ∧ expanded_header v m)
  ∧ (sg_prevExpanded (getSource rs true) !! v = None
     ↔ ¬ ∃ m, m ∈ proxied rs ∧ expanded_header v m).
Proof.
  unfold getSource, proxied.
  destruct (gather_without (source rs) (proxyItems rs)) as [_ Hp].
  destruct (Hp v) as [Hv Hiff]. split; [done|]. rewrite <- Hiff. split.
  - intros Hn. rewrite Hn. done.
  - intros Hn. by destruct Hv.
Qed.

Lemma getSource_filtered (rs : RowStore) :
  sg_source (getSource rs true)
    = List.filter (λ m, negb (isGrouping m)) (proxied rs).
Proof. apply gather_without. Qed.

(** C10: [getSource] with [withoutGrouping = true] returns the records of
    the store in the order of the proxy-items list with the group headers
    removed; its [prevExpanded] holds [true] for a key value exactly when a
    group header with that value, among those records, is expanded, and
    holds no entry otherwise (so collapsed headers leave none). *)
Theorem getSource_withoutGrouping (rs : RowStore) :
  sg_source (getSource rs true)
    = List.filter (λ m, negb (isGrouping m)) (proxied rs)
  ∧ ∀ v : string,
      (sg_prevExpanded (getSource rs true) !! v = Some true
       ↔ ∃ m, m ∈ proxied rs ∧ expanded_header v m)
      ∧ (sg_prevExpanded (getSource rs true) !! v = None
         ↔ ¬ ∃ m, m ∈ proxied rs ∧ expanded_header v m).
Proof.
  split; [apply getSource_filtered|]. intros v. apply getSource_memory.
Qed.

(** * Focus *)

(** C5: after the before-cell-focus handler the event is prevented exactly
    when the target record is a group header or the event was prevented
    before it reached the handler; the handler itself prevents the focus if
    and only if the target is a group header, and leaves the event of a
    data record as it is. *)
Theorem onFocus_prevents_headers (e : FocusEvent) :
  focus_prevented (onFocus e)
    = (isGrouping (focus_model e) || focus_prevented e)
  ∧ focus_model (onFocus e) = focus_model e.
Proof.
  unfold onFocus. by destruct (isGrouping (focus_model e)).
Qed.

(** * The filter hook *)

(** C4: after the filter hook, the entry of a physical index whose record
    is a group header is [false] wherever the map has an entry (an index
    without an entry stays without one, which reads as not filtered out),
    so no group header is filtered out; the entry of every other index is
    its prior value. *)
Theorem beforeFilterApply_headers (itemsToFilter : gmap nat bool)
    (src : list slot) (i : nat) :
  beforeFilterApply itemsToFilter src !! i
    = (if isGrouping (nth_slot src i)
       then (λ _, false) <$> itemsToFilter !! i
       else itemsToFilter !! i)
  ∧ filtered_out (beforeFilterApply itemsToFilter src) i
    = (filtered_out itemsToFilter i && negb (isGrouping (nth_slot src i))).
Proof.
  unfold filtered_out, beforeFilterApply. rewrite map_lookup_imap.
  destruct (itemsToFilter !! i) as [[]|], (isGrouping (nth_slot src i));
    done.
Qed.

(** * Row reorder *)

Lemma drag_scan_spec src rowItems i n :
  drag_scan src rowItems i n = true
  ↔ ∃ p, i ≤ p < i + n ∧ isGrouping (nth_item src rowItems p) = true.
Proof.
  revert i. induction n as [|n IH]; intros i; simpl.
  - split; [done|]. intros (p & Hp & _). lia.
  - destruct (isGrouping (nth_item src rowItems i)) eqn:Hi.
    + split; [|done]. intros _. exists i. split; [lia|done].
    + rewrite IH. split.
      * intros (p & Hp & Hg). exists p. split; [lia|done].
      * intros (p & Hp & Hg). exists p. split; [|done].
        destruct (decide (p = i)) as [->|]; [congruence|lia].
Qed.

(** C1, as stated, fails: in Scenario A the reorder from position 4 (the
    record of group W) to position 3 (the header of W) has no position
    strictly between its ends, and the handler prevents it: the loop starts
    at the lower position itself. *)
Lemma onDrag_prevents_at_lower_end :
  ¬ header_strictly_between (row Scenario.gridA) 4 3
  ∧ drag_prevented (onDrag (row Scenario.gridA) (mkDragEvent 4 3 false)).2
    = true.
Proof.
  split; [|reflexivity]. intros (p & Hp & _). simpl in Hp. lia.
Qed.

(** C1, amended: a reorder that reaches the handler not yet prevented is
    prevented if and only if some row-items position from the lower of the
    two positions up to, and without, the higher one holds a group header,
    the record being read in the source taken in proxy order; in either
    case the handler leaves the store, hence the source sequence and the
    hidden-row map, unchanged. *)
Theorem onDrag_span (rs : RowStore) (e : DragEvent) :
  drag_prevented e = false →
  (onDrag rs e).1 = rs
  ∧ (drag_prevented (onDrag rs e).2 = true
     ↔ ∃ p, drag_from e `min` drag_to e ≤ p < drag_from e `max` drag_to e
            ∧ isGrouping (nth_item (proxied rs) (items rs) p) = true).
Proof.
  intros He. unfold onDrag. rewrite getSource_all.
  set (lo := if bool_decide (drag_from e ≤ drag_to e)
             then drag_from e else drag_to e).
  set (hi := if bool_decide (drag_from e ≤ drag_to e)
             then drag_to e else drag_from e).
  assert (lo = drag_from e `min` drag_to e
          ∧ hi = drag_from e `max` drag_to e ∧ lo ≤ hi) as (Hlo & Hhi & Hle).
  { unfold lo, hi. case_bool_decide; lia. }
  rewrite <- Hlo, <- Hhi.
  destruct (drag_scan (proxied rs) (items rs) lo (hi - lo)) eqn:Hs; simpl.
  - split; [done|]. split; [|done]. intros _.
    apply drag_scan_spec in Hs as (p & Hp & Hg).
    exists p. split; [lia|done].
  - split; [done|]. rewrite He. split; [done|].
    intros (p & Hp & Hg).
    assert (drag_scan (proxied rs) (items rs) lo (hi - lo) = true) as Ht.
    { apply drag_scan_spec. exists p. split; [lia|done]. }
    congruence.
Qed.

Lemma onDrag_span_witness :
  (onDrag (row Scenario.gridA) (mkDragEvent 1 4 false)).1
    = row Scenario.gridA
  ∧ (drag_prevented
       (onDrag (row Scenario.gridA) (mkDragEvent 1 4 false)).2 = true
     ↔ ∃ p, 1 `min` 4 ≤ p < 1 `max` 4
            ∧ isGrouping (nth_item (proxied (row Scenario.gridA))
                            (items (row Scenario.gridA)) p) = true).
Proof.
  apply (onDrag_span (row Scenario.gridA) (mkDragEvent 1 4 false)).
  reflexivity.
Defined.

(** * The grouping-indicator column *)

Section Handlers.
Context (svc : Services).

Lemma doSourceUpdate_frame opts g :
  columns (doSourceUpdate svc opts g) = columns g
  ∧ refreshed (doSourceUpdate svc opts g) = refreshed g
  ∧ focus (doSourceUpdate svc opts g) = focus g.
Proof. unfold doSourceUpdate. by destruct (hasProps g). Qed.

Lemma flag_loop_row types g : row (flag_loop types g) = row g.
Proof.
  induction types as [|t types IH]; [done|]. simpl.
  by destruct (setColumnGrouping (getColumns (columns g) t)).
Qed.

Lemma flag_loop_columns types g :
  columns (flag_loop types g) = setColumns_loop types (columns g).
Proof.
  induction types as [|t types IH]; [done|]. simpl.
  by destruct (setColumnGrouping (getColumns (columns g) t)).
Qed.

Lemma flag_loop_refreshed g :
  refreshed (flag_loop columnTypes g)
    = refreshed g ++ match first_area (columns g) with
                     | Some t => [t]
                     | None => []
                     end.
Proof.
  unfold first_area, columnTypes. simpl.
  destruct (pinStart (columns g)); [|done].
  destruct (regular (columns g)); [|done].
  destruct (pinEnd (columns g)); [|done].
  simpl. by rewrite app_nil_r.
Qed.

(** The columns-set hook and the loop of [setGrouping] flag the same
    column: the first one of the first area that has a column. *)
Lemma setColumns_flags_first_column (cc : ColumnCollection) (t : ColType) :
  flag_count cc = 0 →
  first_area cc = Some t →
  flag_count (setColumns cc) = 1
  ∧ (∃ c rest, getColumns cc t = c :: rest
       ∧ getColumns (setColumns cc) t = mkColumn (col_prop c) true :: rest)
  ∧ (∀ t', t' ≠ t → getColumns (setColumns cc) t' = getColumns cc t').
Proof.
  unfold flag_count, all_columns, first_area, setColumns, columnTypes.
  destruct cc as [ps rg pe]. simpl. intros Hc Ht.
  destruct ps as [|c ps]; simpl in *.
  - destruct rg as [|c rg]; simpl in *.
    + destruct pe as [|c pe]; simpl in *; [done|].
      injection Ht as <-. unfold isGroupingColumn in *. simpl in *.
      destruct (pseudo_group_column c); simpl in *; [done|].
      rewrite Hc. split; [done|]. split; [by exists c, pe|]. by intros [].
    + injection Ht as <-. unfold isGroupingColumn in *. simpl in *.
      destruct (pseudo_group_column c); simpl in *; [done|].
      rewrite Hc. split; [done|]. split; [by exists c, rg|]. by intros [].
  - injection Ht as <-. unfold isGroupingColumn in *. simpl in *.
    destruct (pseudo_group_column c); simpl in *; [done|].
    rewrite Hc. split; [done|]. split; [by exists c, ps|]. by intros [].
Qed.

(** C6, amended: when grouping is applied with non-empty keys to columns
    none of which carries the indicator flag, and some area has a column,
    then afterwards exactly one column over all areas carries the flag: the
    first column of the first area, in priority order, that has a column.
    That column is otherwise as it was, every other column and area is
    unchanged, and that area alone is refreshed. *)
Theorem setGrouping_flags_first_column (o : GroupingOptions) (g : Grid)
    (t : ColType) :
  noProps o = false →
  flag_count (columns g) = 0 →
  first_area (columns g) = Some t →
  let g' := setGrouping svc o g in
  flag_count (columns g') = 1
  ∧ (∃ c rest, getColumns (columns g) t = c :: rest
       ∧ getColumns (columns g') t = mkColumn (col_prop c) true :: rest)
  ∧ (∀ t', t' ≠ t → getColumns (columns g') t' = getColumns (columns g) t')
  ∧ refreshed g' = refreshed g ++ [t].
Proof.
  intros Ho Hc Ht g'. subst g'. unfold setGrouping. rewrite Ho.
  set (g1 := withOptions o (withSubscribed false g)).
  set (g2 := match sg_source (getSource (row g1) false) with
             | [] => g1
             | _ :: _ => doSourceUpdate svc (Some (expandedOptions o)) g1
             end).
  assert (columns g2 = columns g ∧ refreshed g2 = refreshed g) as [Hcol Href].
  { unfold g2. destruct (sg_source (getSource (row g1) false)); [done|].
    destruct (doSourceUpdate_frame (Some (expandedOptions o)) g1)
      as (-> & -> & _). done. }
  cbn [columns refreshed withSubscribed].
  rewrite flag_loop_columns, flag_loop_refreshed, Hcol, Href, Ht.
  destruct (setColumns_flags_first_column (columns g) t Hc Ht)
    as (H1 & H2 & H3).
  done.
Qed.

(** * Turning grouping off *)


Lemma clear_type_columns g t :
  columns (clear_type g t)
    = withColumns (columns g) t (unflag <$> getColumns (columns g) t)
  ∧ row (clear_type g t) = row g.
Proof.
  unfold clear_type.
  by destruct (existsb isGroupingColumn (getColumns (columns g) t)).
Qed.

Lemma clear_types g :
  columns (foldl clear_type g columnTypes)
    = mkColumnCollection (unflag <$> pinStart (columns g))
        (unflag <$> regular (columns g)) (unflag <$> pinEnd (columns g))
  ∧ row (foldl clear_type g columnTypes) = row g.
Proof.
  unfold columnTypes. cbn [foldl].
  set (g1 := clear_type g colPinStart).
  set (g2 := clear_type g1 colRegular).
  destruct (clear_type_columns g colPinStart) as [Hc1 Hr1].
  destruct (clear_type_columns g1 colRegular) as [Hc2 Hr2].
  destruct (clear_type_columns g2 colPinEnd) as [Hc3 Hr3].
  fold g1 in Hc1, Hr1. fold g2 in Hc2, Hr2.
  rewrite Hc3, Hr3, Hc2, Hr2, Hc1, Hr1. done.
Qed.



(** * Expand and collapse *)

Lemma groupingTrimmed_addTrimmed m g :
  groupingTrimmed (row (addTrimmed m TRIMMED_GROUPING g)) = m.
Proof. unfold groupingTrimmed. simpl. by rewrite lookup_insert_eq. Qed.

(** What [onExpand] does on any record it resolves, group header or not:
    it branches on the expanded field alone. *)
Lemma onExpand_resolved (g : Grid) (v i : nat) (model : DataType) :
  getPhysical (row g) v = Some i →
  nth_slot (proxied (row g)) i = Some model →
  ∃ g', onExpand svc g v = Some g' ∧
    if group_expanded model then
      let res := doCollapse svc i (proxied (row g)) in
      source (row g') = er_source res
      ∧ groupingTrimmed (row g') = er_trimmed res ∪ groupingTrimmed (row g)
      ∧ items (row g') = items (row g)
      ∧ focus g' = None
    else
      let res := doExpand svc i v (proxied (row g)) (items (row g)) in
      source (row g') = er_source res
      ∧ groupingTrimmed (row g') = er_trimmed res ∪ groupingTrimmed (row g)
      ∧ items (row g') = default (items (row g)) (er_items res)
      ∧ focus g' = focus g.
Proof.
  intros Hi Hm. unfold onExpand. rewrite Hi, getSource_all, Hm.
  destruct (group_expanded model); cbn [negb]; eexists; (split; [done|]);
    cbv zeta; rewrite groupingTrimmed_addTrimmed.
  - done.
  - by destruct (er_items _).
Qed.

(** C7, amended: the handler resolves the display position through the
    row-items list and reads the record at the index it finds in the source
    taken in proxy-items order, which is also the sequence it gives the
    services.  When that record is a group header: if it is collapsed, the
    expand service is run, its patch is merged into the grouping namespace,
    the returned items, if any, are written to the row-items list, and the
    focus is left alone; if it is expanded, the collapse service is run,
    its patch is merged into the grouping namespace, and the focus is
    cleared in every case.  Both branches write the sequence the service
    leaves back as the source. *)
Theorem onExpand_header (g : Grid) (v i : nat) (model : DataType) :
  getPhysical (row g) v = Some i →
  nth_slot (proxied (row g)) i = Some model →
  group_item model = true →
  ∃ g', onExpand svc g v = Some g' ∧
    if group_expanded model then
      let res := doCollapse svc i (proxied (row g)) in
      source (row g') = er_source res
      ∧ groupingTrimmed (row g') = er_trimmed res ∪ groupingTrimmed (row g)
      ∧ items (row g') = items (row g)
      ∧ focus g' = None
    else
      let res := doExpand svc i v (proxied (row g)) (items (row g)) in
      source (row g') = er_source res
      ∧ groupingTrimmed (row g') = er_trimmed res ∪ groupingTrimmed (row g)
      ∧ items (row g') = default (items (row g)) (er_items res)
      ∧ focus g' = focus g.
Proof. intros Hi Hm _. by apply onExpand_resolved. Qed.

(** C2, amended: the handler has no check of its own for a record that is
    not a group header.  On such a record it changes nothing (source
    sequence, row-items list, entries of the grouping namespace and focus)
    when the record's expanded field is not set, the proxy order lists the
    source in its own order, and the expand service, called on that
    record, returns an empty patch and no items and leaves the sequence as
    it is. *)
Theorem onExpand_non_header (g : Grid) (v i : nat) (model : DataType) :
  getPhysical (row g) v = Some i →
  nth_slot (proxied (row g)) i = Some model →
  group_item model = false →
  group_expanded model = false →
  proxied (row g) = source (row g) →
  doExpand svc i v (source (row g)) (items (row g))
    = mkExpandedResults ∅ None (source (row g)) →
  ∃ g', onExpand svc g v = Some g'
    ∧ source (row g') = source (row g)
    ∧ items (row g') = items (row g)
    ∧ groupingTrimmed (row g') = groupingTrimmed (row g)
    ∧ focus g' = focus g.
Proof.
  intros Hi Hm _ He Hp Hs.
  destruct (onExpand_resolved g v i model Hi Hm) as (g' & Hg' & H).
  rewrite He in H. cbv zeta in H. rewrite Hp, Hs in H. simpl in H.
  destruct H as (H1 & H2 & H3 & H4). exists g'.
  rewrite (left_id_L ∅ (∪)) in H2. done.
Qed.

(** * Rebuild after a sort *)


(** * The namespaces of the hidden-row map *)

Lemma clearGrouping_frame ns g :
  ns ≠ TRIMMED_GROUPING →
  trimmed (row (clearGrouping g)) !! ns = trimmed (row g) !! ns.
Proof.
  intros Hns. unfold clearGrouping. cbv zeta.
  destruct (clear_types g) as [_ Hr].
  unfold setData, withRow. cbn [row trimmed]. by rewrite Hr.
Qed.

Lemma doSourceUpdate_trimmed_frame ns opts g :
  ns ≠ TRIMMED_GROUPING →
  trimmed (row (doSourceUpdate svc opts g)) !! ns = trimmed (row g) !! ns.
Proof.
  intros Hns. unfold doSourceUpdate. destruct (hasProps g); [|done].
  simpl. by rewrite lookup_insert_ne.
Qed.

(** C9: every operation of the plugin leaves the entries of every
    namespace other than the grouping namespace as they were: the expand
    toggle, the rebuild and the data-set handler publish under the grouping
    namespace only, applying and clearing grouping go through them and the
    data write, and the reorder handler does not write.  (The filter hook
    gets the filter's pending map as its argument and has no access to the
    store's map.) *)
Theorem trimmed_frame (ns : string) (g : Grid) :
  ns ≠ TRIMMED_GROUPING →
  (∀ v g', onExpand svc g v = Some g' →
           trimmed (row g') !! ns = trimmed (row g) !! ns)
  ∧ (∀ opts, trimmed (row (doSourceUpdate svc opts g)) !! ns
             = trimmed (row g) !! ns)
  ∧ (∀ data, trimmed (row (onDataSet svc data g).1) !! ns
             = trimmed (row g) !! ns)
  ∧ (∀ o, trimmed (row (setGrouping svc o g)) !! ns = trimmed (row g) !! ns)
  ∧ trimmed (row (clearGrouping g)) !! ns = trimmed (row g) !! ns
  ∧ (∀ e, trimmed (onDrag (row g) e).1 !! ns = trimmed (row g) !! ns).
Proof.
  intros Hns. repeat split.
  - intros v g'. unfold onExpand.
    destruct (getPhysical (row g) v) as [i|]; [|done].
    destruct (nth_slot _ i) as [model|]; [|done].
    destruct (group_expanded model); cbn [negb]; intros [= <-]; simpl;
      rewrite lookup_insert_ne by done; [done|].
    by destruct (er_items _).
  - intros opts. by apply doSourceUpdate_trimmed_frame.
  - intros data. unfold onDataSet. destruct data as [[|s l]|]; [done| |done].
    destruct (hasProps g); [|done]. simpl. by rewrite lookup_insert_ne.
  - intros o. unfold setGrouping. destruct (noProps o).
    + by rewrite clearGrouping_frame.
    + cbn [row withSubscribed]. rewrite flag_loop_row.
      destruct (sg_source _); [done|].
      by rewrite doSourceUpdate_trimmed_frame.
  - by apply clearGrouping_frame.
  - intros e. unfold onDrag. by destruct (drag_scan _ _ _ _).
Qed.

End Handlers.

(** * The properties on the spec's scenarios *)

(** Scenario A: the Builder of the spec on the three records, every group
    expanded by default. *)
Example gatherGrouping_scenario_A :
  sourceWithGroups
    (SpecServices.gatherGrouping Scenario.flat (keyFn Scenario.gridA)
       (mkExpandedOptions None (Some true))) = Scenario.grouped
  ∧ depth (SpecServices.gatherGrouping Scenario.flat (keyFn Scenario.gridA)
             (mkExpandedOptions None (Some true))) = 1
  ∧ gr_trimmed
      (SpecServices.gatherGrouping Scenario.flat (keyFn Scenario.gridA)
         (mkExpandedOptions None (Some true))) = ∅.
Proof. repeat split; reflexivity. Qed.

(** Scenario B: collapsing the header of group E hides the indices 1 and 2
    and sets the header collapsed. *)
Example doCollapse_scenario_B :
  er_trimmed (SpecServices.doCollapse 0 Scenario.grouped)
    = <[1 := true]> (<[2 := true]> ∅)
  ∧ expanded_of
      (nth_slot (er_source (SpecServices.doCollapse 0 Scenario.grouped)) 0)
    = Some false.
Proof. split; reflexivity. Qed.

(** Scenario D: the reorder from position 2, the last record of group E,
    to position 3, the header of group W, reads position 2 only and is not
    prevented. *)
Example onDrag_scenario_D :
  drag_prevented (onDrag (row Scenario.gridA) (mkDragEvent 2 3 false)).2
    = false.
Proof. reflexivity. Qed.

(** C6, as stated, fails: with no column in any area, applying grouping
    with a key flags no column; and a column that carried the flag before
    keeps it beside the newly flagged one. *)
Lemma setGrouping_flag_count_not_one :
  flag_count (columns (setGrouping SpecServices.services
                         (Scenario.byRegion None) Scenario.gridA)) = 0
  ∧ flag_count
      (columns (setGrouping SpecServices.services (Scenario.byRegion None)
                  Scenario.gridStaleFlag)) = 2.
Proof. split; reflexivity. Qed.

(** Applying grouping by region to two unflagged regular columns. *)
Lemma setGrouping_flags_first_column_witness :
  flag_count (columns (setGrouping SpecServices.services
                         (Scenario.byRegion None) Scenario.gridColumns)) = 1
  ∧ (∃ c rest,
       getColumns (columns Scenario.gridColumns) colRegular = c :: rest
       ∧ getColumns
           (columns (setGrouping SpecServices.services
                       (Scenario.byRegion None) Scenario.gridColumns))
           colRegular = mkColumn (col_prop c) true :: rest)
  ∧ (∀ t', t' ≠ colRegular →
       getColumns
         (columns (setGrouping SpecServices.services
                     (Scenario.byRegion None) Scenario.gridColumns)) t'
       = getColumns (columns Scenario.gridColumns) t')
  ∧ refreshed (setGrouping SpecServices.services (Scenario.byRegion None)
                 Scenario.gridColumns)
    = refreshed Scenario.gridColumns ++ [colRegular].
Proof.
  apply (setGrouping_flags_first_column SpecServices.services
           (Scenario.byRegion None) Scenario.gridColumns colRegular);
    reflexivity.
Defined.



(** Scenario B: the toggle on the expanded header of group E collapses
    it. *)
Lemma onExpand_header_witness :
  ∃ g', onExpand SpecServices.services Scenario.gridA 0 = Some g'
    ∧ source (row g')
      = er_source (SpecServices.doCollapse 0 (proxied (row Scenario.gridA)))
    ∧ groupingTrimmed (row g')
      = er_trimmed (SpecServices.doCollapse 0 (proxied (row Scenario.gridA)))
        ∪ groupingTrimmed (row Scenario.gridA)
    ∧ items (row g') = items (row Scenario.gridA)
    ∧ focus g' = None.
Proof.
  apply (onExpand_header SpecServices.services Scenario.gridA 0 0
           (mkDataType true "E" true 0 [1; 2] ∅)); reflexivity.
Defined.

(** C7, as stated, fails.  In Scenario A with the record of group W
    focused (physical index 4), collapsing the header of group E hides the
    indices 1 and 2 only, and the focus is cleared all the same.  And in
    Scenario C, where the proxy order is not the physical order, display
    position 0 resolves to physical index 0, the collapsed header of group
    E; the handler reads index 0 of the proxy-ordered source, the expanded
    header of group W, and takes the collapse branch: the focus is
    cleared. *)
Lemma onExpand_collapse_clears_focus_outside :
  (focus Scenario.gridFocused = Some 4
   ∧ er_trimmed (SpecServices.doCollapse 0
                   (proxied (row Scenario.gridFocused))) !! 4 = None
   ∧ focus <$> onExpand SpecServices.services Scenario.gridFocused 0
     = Some None)
  ∧ (getPhysical (row Scenario.gridSorted) 0 = Some 0
     ∧ isGrouping (nth_slot (source (row Scenario.gridSorted)) 0) = true
     ∧ expanded_of (nth_slot (source (row Scenario.gridSorted)) 0)
       = Some false
     ∧ expanded_of (nth_slot (proxied (row Scenario.gridSorted)) 0)
       = Some true
     ∧ focus <$> onExpand SpecServices.services
                   (Scenario.withFocus (Some 1) Scenario.gridSorted) 0
       = Some None).
Proof. repeat split; reflexivity. Qed.

(** C2, as stated, fails: with two data records whose proxy order is not
    their physical order, the toggle on display position 0 resolves to a
    data record, and the handler writes the sequence back in proxy order:
    the source sequence changes. *)
Lemma onExpand_non_header_rewrites_source :
  isGrouping (nth_slot (proxied (row Scenario.gridPermuted)) 0) = false
  ∧ isGrouping (nth_slot (source (row Scenario.gridPermuted)) 0) = false
  ∧ Scenario.regions (source (row Scenario.gridPermuted))
    = [Some "E"; Some "W"]%string
  ∧ (λ g', Scenario.regions (source (row g')))
      <$> onExpand SpecServices.services Scenario.gridPermuted 0
    = Some [Some "W"; Some "E"]%string.
Proof. repeat split; reflexivity. Qed.

(** The toggle on a data record of Scenario A. *)
Lemma onExpand_non_header_witness :
  ∃ g', onExpand SpecServices.services Scenario.gridA 1 = Some g'
    ∧ source (row g') = source (row Scenario.gridA)
    ∧ items (row g') = items (row Scenario.gridA)
    ∧ groupingTrimmed (row g') = groupingTrimmed (row Scenario.gridA)
    ∧ focus g' = focus Scenario.gridA.
Proof.
  apply (onExpand_non_header SpecServices.services Scenario.gridA 1 1
           (mkDataType false "" false 0 []
              (<[Scenario.region := "E"%string]>
                 (<["v"%string := "1"%string]> ∅))));
    reflexivity.
Defined.

(** Scenario C: the rebuild after the sort keeps group W expanded at its
    new physical index 0 and group E collapsed, with the records of E
    hidden. *)
Example doSourceUpdate_scenario_C :
  (λ s : slot, (λ r, (group_value r, group_expanded r)) <$> s)
    <$> source (row (doSourceUpdate SpecServices.services None
                       Scenario.gridSorted))
  = [Some ("W", true); Some ("", false); Some ("E", false);
     Some ("", false); Some ("", false)]%string
  ∧ map_to_list (groupingTrimmed
                   (row (doSourceUpdate SpecServices.services None
                           Scenario.gridSorted)))
    = [(4, true); (3, true)].
Proof. split; reflexivity. Qed.

(** The same rebuild when the options carry the key [prevExpanded] with
    the value undefined: the gathered memory is overridden and group W
    comes out collapsed. *)
Example doSourceUpdate_undefined_memory :
  (λ s : slot, (λ r, (group_value r, group_expanded r)) <$> s)
    <$> source (row (doSourceUpdate SpecServices.services
                       (Some (ExpandedOptionsObject None None true))
                       Scenario.gridSorted))
  = [Some ("W", false); Some ("", false); Some ("E", false);
     Some ("", false); Some ("", false)]%string.
Proof. reflexivity. Qed.



(** The filter namespace of a grid that has one. *)
Lemma trimmed_frame_witness :
  (∀ v g', onExpand SpecServices.services Scenario.gridFiltered v = Some g' →
           trimmed (row g') !! "filter"%string
           = trimmed (row Scenario.gridFiltered) !! "filter"%string)
  ∧ (∀ opts,
       trimmed (row (doSourceUpdate SpecServices.services opts
                       Scenario.gridFiltered)) !! "filter"%string
       = trimmed (row Scenario.gridFiltered) !! "filter"%string)
  ∧ (∀ data,
       trimmed (row (onDataSet SpecServices.services data
                       Scenario.gridFiltered).1) !! "filter"%string
       = trimmed (row Scenario.gridFiltered) !! "filter"%string)
  ∧ (∀ o, trimmed (row (setGrouping SpecServices.services o
                          Scenario.gridFiltered)) !! "filter"%string
          = trimmed (row Scenario.gridFiltered) !! "filter"%string)
  ∧ trimmed (row (clearGrouping Scenario.gridFiltered)) !! "filter"%string
    = trimmed (row Scenario.gridFiltered) !! "filter"%string
  ∧ (∀ e, trimmed (onDrag (row Scenario.gridFiltered) e).1 !! "filter"%string
          = trimmed (row Scenario.gridFiltered) !! "filter"%string).
Proof.
  apply (trimmed_frame SpecServices.services "filter" Scenario.gridFiltered).
  unfold TRIMMED_GROUPING. discriminate.
Defined.

(** * Further properties of getSource *)

Lemma SourceGather_eq (a b : SourceGather) :
  sg_source a = sg_source b → sg_prevExpanded a = sg_prevExpanded b → a = b.
Proof. destruct a, b. simpl. by intros -> ->. Qed.

Lemma filter_all_true {A} (f : A → bool) (l : list A) :
  Forall (λ x, f x = true) l → List.filter f l = l.
Proof.
  induction 1 as [|x l Hx _ IH]; [done|]. simpl. by rewrite Hx, IH.
Qed.

Lemma filter_Permutation_bool {A} (f : A → bool) (l l' : list A) :
  l ≡ₚ l' → List.filter f l ≡ₚ List.filter f l'.
Proof.
  induction 1 as [|x l l' _ IH|x y l|l l' l'' _ IH1 _ IH2]; simpl.
  - done.
  - destruct (f x); [by constructor|done].
  - destruct (f x), (f y); try done. by constructor.
  - by etrans.
Qed.

(** X1: [getSource()] with grouping kept puts one element per proxy item,
    in the order of the proxy items (an index out of range gives an
    undefined element), and gathers no expansion memory. *)
Theorem getSource_with_grouping (rs : RowStore) :
  sg_source (getSource rs false) = nth_slot (source rs) <$> proxyItems rs
  ∧ length (sg_source (getSource rs false)) = length (proxyItems rs)
  ∧ sg_prevExpanded (getSource rs false) = ∅.
Proof.
  unfold getSource.
  destruct (gather_all (source rs) (proxyItems rs)) as [Hs Hp].
  rewrite Hs, Hp, length_fmap. done.
Qed.

(** X2: when the proxy items reach no group header, [getSource(true)]
    returns what [getSource()] returns: the same sequence and an empty
    expansion memory. *)
Theorem getSource_no_header_same (rs : RowStore) :
  Forall (λ m, isGrouping m = false) (proxied rs) →
  getSource rs true = getSource rs false.
Proof.
  intros Hn. apply SourceGather_eq.
  - rewrite getSource_filtered, getSource_all. apply filter_all_true.
    eapply Forall_impl; [exact Hn|]. intros m Hm. simpl. by rewrite Hm.
  - transitivity (∅ : gmap string bool); [|symmetry; apply gather_all].
    apply map_eq. intros v. rewrite lookup_empty.
    apply getSource_memory. intros (m & Hin & Hx).
    rewrite Forall_forall in Hn.
    by apply (not_expanded_header_data v m (Hn m Hin)).
Qed.

Lemma getSource_no_header_same_witness :
  getSource (row Scenario.gridPermuted) true
  = getSource (row Scenario.gridPermuted) false.
Proof.
  apply (getSource_no_header_same (row Scenario.gridPermuted)).
  repeat constructor.
Defined.

(** X3: the expansion memory [getSource(true)] gathers does not depend on
    the order of the proxy items: two stores with the same source whose
    proxy items are a permutation of each other give the same memory, and
    sequences that are permutations of each other. *)
Theorem getSource_memory_order (rs rs' : RowStore) :
  source rs = source rs' →
  proxyItems rs ≡ₚ proxyItems rs' →
  sg_prevExpanded (getSource rs true) = sg_prevExpanded (getSource rs' true)
  ∧ sg_source (getSource rs true) ≡ₚ sg_source (getSource rs' true).
Proof.
  intros Hs Hp.
  assert (proxied rs ≡ₚ proxied rs') as Hpp.
  { unfold proxied. rewrite Hs. by apply fmap_Permutation. }
  split.
  - apply map_eq. intros v.
    destruct (getSource_memory rs v) as [Ht Hn].
    destruct (getSource_memory rs' v) as [Ht' Hn'].
    destruct (sg_prevExpanded (getSource rs' true) !! v) as [[]|] eqn:Hl.
    + apply Ht. destruct (proj1 Ht' eq_refl) as (m & Hin & Hx).
      exists m. split; [|done]. by rewrite Hpp.
    + destruct (gather_without (source rs') (proxyItems rs')) as [_ Hv].
      destruct (Hv v) as [[Hv'|Hv'] _]; unfold getSource in Hl; congruence.
    + apply Hn. intros (m & Hin & Hx). apply (proj1 Hn' eq_refl).
      exists m. split; [|done]. by rewrite <- Hpp.
  - rewrite !getSource_filtered. by apply filter_Permutation_bool.
Qed.

Lemma getSource_memory_order_witness :
  sg_prevExpanded (getSource (row Scenario.gridSorted) true)
  = sg_prevExpanded
      (getSource (mkRowStore (source (row Scenario.gridSorted)) []
                    [0; 1; 2; 3; 4] ∅ 0) true)
  ∧ sg_source (getSource (row Scenario.gridSorted) true)
    ≡ₚ sg_source
         (getSource (mkRowStore (source (row Scenario.gridSorted)) []
                       [0; 1; 2; 3; 4] ∅ 0) true).
Proof.
  apply (getSource_memory_order (row Scenario.gridSorted)
           (mkRowStore (source (row Scenario.gridSorted)) []
              [0; 1; 2; 3; 4] ∅ 0)).
  - reflexivity.
  - simpl. solve_Permutation.
Defined.

(** * Further properties of the reorder and filter handlers *)

Lemma nth_item_beyond src rowItems p :
  length rowItems ≤ p → nth_item src rowItems p = None.
Proof. intros Hp. unfold nth_item. by rewrite lookup_ge_None_2. Qed.

(** X4: the decision of [onDrag] does not depend on the direction of the
    move: a reorder from [a] to [b] is prevented exactly when the reorder
    from [b] to [a] is; and a reorder onto its own position is never
    prevented by the handler. *)
Theorem onDrag_direction (rs : RowStore) (a b : nat) (p : bool) :
  drag_prevented (onDrag rs (mkDragEvent a b p)).2
    = drag_prevented (onDrag rs (mkDragEvent b a p)).2
  ∧ onDrag rs (mkDragEvent a a p) = (rs, mkDragEvent a a p).
Proof.
  split.
  - unfold onDrag. simpl.
    destruct (decide (a = b)) as [->|Hne]; [done|].
    repeat case_bool_decide; try lia;
      by destruct (drag_scan _ _ _ _).
  - unfold onDrag. simpl. rewrite bool_decide_eq_true_2 by done.
    by rewrite Nat.sub_diag.
Qed.

(** X5: positions at or beyond the end of the row-items list read an
    undefined record: a reorder whose lower position is not below the
    length of the list is never prevented, and the event is returned as it
    came. *)
Theorem onDrag_beyond_items (rs : RowStore) (e : DragEvent) :
  length (items rs) ≤ drag_from e `min` drag_to e →
  onDrag rs e = (rs, e).
Proof.
  intros Hlen. unfold onDrag.
  set (lo := if bool_decide (drag_from e ≤ drag_to e)
             then drag_from e else drag_to e).
  set (hi := if bool_decide (drag_from e ≤ drag_to e)
             then drag_to e else drag_from e).
  assert (length (items rs) ≤ lo) as Hlo.
  { unfold lo. case_bool_decide; lia. }
  destruct (drag_scan _ (items rs) lo (hi - lo)) eqn:Hs; [|done].
  apply drag_scan_spec in Hs as (q & Hq & Hg).
  rewrite nth_item_beyond in Hg by lia. done.
Qed.

Lemma onDrag_beyond_items_witness :
  onDrag (row Scenario.gridA) (mkDragEvent 7 5 false)
  = (row Scenario.gridA, mkDragEvent 7 5 false).
Proof.
  apply (onDrag_beyond_items (row Scenario.gridA) (mkDragEvent 7 5 false)).
  simpl. lia.
Defined.

Lemma beforeFilterApply_lookup (m : gmap nat bool) (src : list slot) i :
  beforeFilterApply m src !! i
  = (λ b, if b && isGrouping (nth_slot src i) then false else b) <$> m !! i.
Proof.
  unfold beforeFilterApply. rewrite map_lookup_imap.
  by destruct (m !! i).
Qed.

(** X6: the filter hook neither adds nor removes a key of the map it is
    given, and running it a second time over its own result changes
    nothing. *)
Theorem beforeFilterApply_idempotent (itemsToFilter : gmap nat bool)
    (src : list slot) :
  dom (beforeFilterApply itemsToFilter src) = dom itemsToFilter
  ∧ beforeFilterApply (beforeFilterApply itemsToFilter src) src
    = beforeFilterApply itemsToFilter src.
Proof.
  split.
  - apply set_eq. intros i. rewrite !elem_of_dom, beforeFilterApply_lookup.
    by rewrite fmap_is_Some.
  - apply map_eq. intros i. rewrite !beforeFilterApply_lookup.
    destruct (itemsToFilter !! i) as [[]|]; simpl; [|done|done].
    by destruct (isGrouping (nth_slot src i)).
Qed.

(** X7: when no entry that is [true] belongs to a group header, the
    filter hook returns the map unchanged. *)
Theorem beforeFilterApply_no_header (itemsToFilter : gmap nat bool)
    (src : list slot) :
  (∀ i, itemsToFilter !! i = Some true → isGrouping (nth_slot src i) = false) →
  beforeFilterApply itemsToFilter src = itemsToFilter.
Proof.
  intros Hn. apply map_eq. intros i. rewrite beforeFilterApply_lookup.
  destruct (itemsToFilter !! i) as [[]|] eqn:Hi; simpl; [|done|done].
  by rewrite (Hn i Hi).
Qed.

Lemma beforeFilterApply_no_header_witness :
  beforeFilterApply (<[1 := true]> (<[3 := false]> ∅)) Scenario.grouped
  = <[1 := true]> (<[3 := false]> ∅).
Proof.
  apply (beforeFilterApply_no_header (<[1 := true]> (<[3 := false]> ∅))
           Scenario.grouped).
  intros i Hi. destruct (decide (i = 1)) as [->|Hne]; [reflexivity|].
  rewrite lookup_insert_ne in Hi by done.
  destruct (decide (i = 3)) as [->|Hne3].
  - rewrite lookup_insert_eq in Hi. discriminate.
  - rewrite lookup_insert_ne in Hi by done. by rewrite lookup_empty in Hi.
Defined.

(** * Further properties of the column flag *)

Lemma unflag_id (l : list Column) :
  List.filter isGroupingColumn l = [] → unflag <$> l = l.
Proof.
  induction l as [|c l IH]; [done|]. rewrite fmap_cons.
  cbn [List.filter]. unfold unflag at 1.
  destruct (isGroupingColumn c); [done|]. intros Hl. by rewrite IH.
Qed.

Lemma filter_app_nil {A} (f : A → bool) (l1 l2 : list A) :
  List.filter f (l1 ++ l2) = [] →
  List.filter f l1 = [] ∧ List.filter f l2 = [].
Proof. rewrite List.filter_app. apply app_eq_nil. Qed.

Lemma flag_count_zero (cc : ColumnCollection) :
  flag_count cc = 0 →
  List.filter isGroupingColumn (pinStart cc) = []
  ∧ List.filter isGroupingColumn (regular cc) = []
  ∧ List.filter isGroupingColumn (pinEnd cc) = [].
Proof.
  unfold flag_count, all_columns. intros Hc.
  apply length_zero_iff_nil in Hc.
  apply filter_app_nil in Hc as [H1 Hc].
  by apply filter_app_nil in Hc as [H2 H3].
Qed.

(** X8: the columns-set hook is idempotent and only ever sets a flag: run
    on its own result it changes nothing, it raises the number of flagged
    columns by one at most and never lowers it, and it keeps every column's
    property name and place. *)
Theorem setColumns_idempotent (cc : ColumnCollection) :
  setColumns (setColumns cc) = setColumns cc
  ∧ flag_count cc ≤ flag_count (setColumns cc) ≤ S (flag_count cc)
  ∧ col_prop <$> all_columns (setColumns cc) = col_prop <$> all_columns cc.
Proof.
  unfold setColumns, columnTypes, flag_count, all_columns.
  destruct cc as [[|c ps] [|c' rg] [|c'' pe]]; simpl;
    repeat match goal with
           | |- context [isGroupingColumn ?c] =>
               destruct (isGroupingColumn c)
           end; simpl; repeat split; lia.
Qed.

Section MoreHandlers.
Context (svc : Services).

Lemma setGrouping_on_columns o g :
  noProps o = false →
  columns (setGrouping svc o g) = setColumns (columns g)
  ∧ refreshed (setGrouping svc o g)
    = refreshed g ++ match first_area (columns g) with
                     | Some t => [t]
                     | None => []
                     end.
Proof.
  intros Ho. unfold setGrouping. rewrite Ho.
  set (g1 := withOptions o (withSubscribed false g)).
  set (g2 := match sg_source (getSource (row g1) false) with
             | [] => g1
             | _ :: _ => doSourceUpdate svc (Some (expandedOptions o)) g1
             end).
  assert (columns g2 = columns g ∧ refreshed g2 = refreshed g) as [Hcol Href].
  { unfold g2. destruct (sg_source (getSource (row g1) false)); [done|].
    destruct (doSourceUpdate_frame svc (Some (expandedOptions o)) g1)
      as (-> & -> & _). done. }
  cbn [columns refreshed withSubscribed].
  by rewrite flag_loop_columns, flag_loop_refreshed, Hcol, Href.
Qed.

Lemma setGrouping_off_columns o g :
  noProps o = true →
  columns (setGrouping svc o g)
  = mkColumnCollection (unflag <$> pinStart (columns g))
      (unflag <$> regular (columns g)) (unflag <$> pinEnd (columns g)).
Proof.
  intros Ho. unfold setGrouping. rewrite Ho. unfold clearGrouping.
  cbv zeta. unfold setData, withRow. cbn [columns].
  by rewrite (proj1 (clear_types _)).
Qed.

(** X9: applying grouping with keys flags the column the columns-set hook
    would flag: the columns after [setGrouping] are those [setColumns]
    gives, and the one area refreshed is the first that has a column (none
    when every area is empty). *)
Theorem setGrouping_columns_as_hook (o : GroupingOptions) (g : Grid) :
  noProps o = false →
  columns (setGrouping svc o g) = setColumns (columns g)
  ∧ refreshed (setGrouping svc o g)
    = refreshed g ++ match first_area (columns g) with
                     | Some t => [t]
                     | None => []
                     end.
Proof. apply setGrouping_on_columns. Qed.

Lemma clear_type_refreshed g t :
  refreshed (clear_type g t)
  = refreshed g
    ++ (if existsb isGroupingColumn (getColumns (columns g) t)
        then [t] else []).
Proof.
  unfold clear_type.
  destruct (existsb isGroupingColumn (getColumns (columns g) t)); simpl;
    [done|by rewrite app_nil_r].
Qed.

(** X10: [clearGrouping] refreshes exactly the areas that held a flagged
    column, in priority order, and no other; every column keeps its
    property name and place. *)
Theorem clearGrouping_refreshes (g : Grid) :
  refreshed (clearGrouping g)
  = refreshed g
    ++ List.filter
         (λ t, existsb isGroupingColumn (getColumns (columns g) t))
         columnTypes
  ∧ col_prop <$> all_columns (columns (clearGrouping g))
    = col_prop <$> all_columns (columns g).
Proof.
  unfold clearGrouping. cbv zeta. unfold setData, withRow.
  cbn [refreshed columns]. split.
  - unfold columnTypes. cbn [foldl List.filter].
    set (g1 := clear_type g colPinStart).
    set (g2 := clear_type g1 colRegular).
    rewrite (clear_type_refreshed g2 colPinEnd).
    unfold g2. rewrite (clear_type_refreshed g1 colRegular).
    rewrite (proj1 (clear_type_columns g1 colRegular)).
    unfold g1. rewrite (clear_type_refreshed g colPinStart).
    rewrite (proj1 (clear_type_columns g colPinStart)).
    destruct (columns g) as [ps rg pe]. simpl.
    destruct (existsb isGroupingColumn ps),
      (existsb isGroupingColumn rg), (existsb isGroupingColumn pe);
      simpl; by rewrite <- ?app_assoc, ?app_nil_r.
  - rewrite (proj1 (clear_types g)). unfold all_columns.
    cbn [pinStart regular pinEnd]. rewrite !fmap_app, <- !list_fmap_compose.
    assert (∀ l : list Column, (col_prop ∘ unflag) <$> l = col_prop <$> l)
      as Hu.
    { intros l. apply list_fmap_ext. intros _ c _. simpl. unfold unflag.
      by destruct (isGroupingColumn c). }
    by rewrite !Hu.
Qed.

(** X11: round trip of the indicator flag: on columns none of which
    carries the flag, applying grouping with keys and then turning it off
    gives the columns back as they were. *)
Theorem setGrouping_on_off_columns (o off : GroupingOptions) (g : Grid) :
  noProps o = false →
  noProps off = true →
  flag_count (columns g) = 0 →
  columns (setGrouping svc off (setGrouping svc o g)) = columns g.
Proof.
  intros Ho Hoff Hc.
  rewrite (setGrouping_off_columns off _ Hoff).
  rewrite (proj1 (setGrouping_on_columns o g Ho)).
  destruct (flag_count_zero _ Hc) as (H1 & H2 & H3).
  unfold setColumns, columnTypes.
  destruct (columns g) as [ps rg pe]. simpl in *.
  assert (∀ c l, List.filter isGroupingColumn (c :: l) = [] →
            unflag (mkColumn (col_prop c) true) :: (unflag <$> l) = c :: l)
    as Hfirst.
  { intros [n b] l. simpl. unfold isGroupingColumn at 1. simpl.
    destruct b; [done|]. intros Hl. by rewrite (unflag_id l Hl). }
  destruct ps as [|c ps]; simpl.
  - destruct rg as [|c rg]; simpl.
    + destruct pe as [|c pe]; simpl; [done|]. by rewrite Hfirst.
    + by rewrite Hfirst, (unflag_id pe H3).
  - by rewrite Hfirst, (unflag_id rg H2), (unflag_id pe H3).
Qed.

End MoreHandlers.

Lemma setGrouping_columns_as_hook_witness :
  columns (setGrouping SpecServices.services (Scenario.byRegion None)
             Scenario.gridStaleFlag)
  = setColumns (columns Scenario.gridStaleFlag)
  ∧ refreshed (setGrouping SpecServices.services (Scenario.byRegion None)
                 Scenario.gridStaleFlag)
    = refreshed Scenario.gridStaleFlag
      ++ match first_area (columns Scenario.gridStaleFlag) with
         | Some t => [t]
         | None => []
         end.
Proof.
  apply (setGrouping_columns_as_hook SpecServices.services
           (Scenario.byRegion None) Scenario.gridStaleFlag).
  reflexivity.
Defined.

Lemma setGrouping_on_off_columns_witness :
  columns (setGrouping SpecServices.services Scenario.noKeys
             (setGrouping SpecServices.services (Scenario.byRegion None)
                Scenario.gridColumns))
  = columns Scenario.gridColumns.
Proof.
  apply (setGrouping_on_off_columns SpecServices.services
           (Scenario.byRegion None) Scenario.noKeys Scenario.gridColumns);
    reflexivity.
Defined.

(** * Further properties of the handlers that write *)

Lemma filter_filter_bool {A} (f : A → bool) (l : list A) :
  List.filter f (List.filter f l) = List.filter f l.
Proof.
  induction l as [|x l IH]; [done|]. simpl.
  destruct (f x) eqn:Hx; [|done]. simpl. by rewrite Hx, IH.
Qed.

Section Writers.
Context (svc : Services).

(** X12: [onExpand] fails, on reading the expanded field of an undefined
    model, exactly when the display position is outside the row-items list
    or the index found there has no record in the proxy-ordered source; in
    every other case it runs to its end. *)
Theorem onExpand_fails_iff (g : Grid) (v : nat) :
  onExpand svc g v = None
  ↔ nth_item (proxied (row g)) (items (row g)) v = None.
Proof.
  unfold onExpand, getPhysical, nth_item. rewrite getSource_all.
  destruct (items (row g) !! v) as [i|]; [|done].
  destruct (nth_slot (proxied (row g)) i) as [model|]; [|done].
  by destruct (group_expanded model).
Qed.

(** X13: whatever the services return, [onExpand] leaves the columns, the
    refresh log, the plugin's options, its subscriptions, the proxy items
    and the grouping depth as they were. *)
Theorem onExpand_frame (g g' : Grid) (v : nat) :
  onExpand svc g v = Some g' →
  columns g' = columns g
  ∧ refreshed g' = refreshed g
  ∧ options g' = options g
  ∧ subscribed g' = subscribed g
  ∧ proxyItems (row g') = proxyItems (row g)
  ∧ groupingDepth (row g') = groupingDepth (row g).
Proof.
  unfold onExpand.
  destruct (getPhysical (row g) v) as [i|]; [|done].
  destruct (nth_slot _ i) as [model|]; [|done].
  destruct (group_expanded model); cbn [negb]; intros [= <-]; [done|].
  by destruct (er_items _).
Qed.

Lemma clearGrouping_plugin_state g :
  options (clearGrouping g) = options g
  ∧ subscribed (clearGrouping g) = subscribed g.
Proof.
  unfold clearGrouping. cbv zeta. unfold setData, withRow.
  cbn [options subscribed]. unfold columnTypes. cbn [foldl].
  unfold clear_type.
  repeat match goal with
         | |- context [if ?b then refreshByType _ _ else _] => destruct b
         end; done.
Qed.

Lemma flag_loop_plugin_state types g :
  options (flag_loop types g) = options g
  ∧ subscribed (flag_loop types g) = subscribed g.
Proof.
  induction types as [|t types IH]; [done|]. simpl.
  by destruct (setColumnGrouping (getColumns (columns g) t)).
Qed.

Lemma doSourceUpdate_plugin_state opts g :
  options (doSourceUpdate svc opts g) = options g
  ∧ subscribed (doSourceUpdate svc opts g) = subscribed g.
Proof. unfold doSourceUpdate. by destruct (hasProps g). Qed.

(** X14: after [setGrouping] the plugin holds the options it was given,
    its listeners are attached exactly when the options carry at least one
    key, and [hasProps] answers the same: with no key the plugin stays
    detached from every event. *)
Theorem setGrouping_plugin_state (o : GroupingOptions) (g : Grid) :
  options (setGrouping svc o g) = Some o
  ∧ subscribed (setGrouping svc o g) = negb (noProps o)
  ∧ hasProps (setGrouping svc o g) = negb (noProps o).
Proof.
  assert (options (setGrouping svc o g) = Some o
          ∧ subscribed (setGrouping svc o g) = negb (noProps o)) as [Hop Hs].
  { unfold setGrouping. destruct (noProps o) eqn:Ho.
    - destruct (clearGrouping_plugin_state
                  (withOptions o (withSubscribed false g))) as [-> ->].
      done.
    - cbn [options subscribed withSubscribed negb].
      rewrite (proj1 (flag_loop_plugin_state _ _)).
      destruct (sg_source _); [done|].
      by rewrite (proj1 (doSourceUpdate_plugin_state _ _)). }
  split; [done|]. split; [done|].
  unfold hasProps. rewrite Hop. unfold noProps.
  by destruct (props o) as [[|]|].
Qed.

(** X15: applying grouping with keys to a store whose proxy-items list is
    empty does not run the Builder: the row store is left as it was. *)
Theorem setGrouping_empty_source (o : GroupingOptions) (g : Grid) :
  noProps o = false →
  proxyItems (row g) = [] →
  row (setGrouping svc o g) = row g.
Proof.
  intros Ho Hp. unfold setGrouping. rewrite Ho.
  cbn [row withSubscribed]. rewrite flag_loop_row, getSource_all.
  unfold proxied. cbn [row withOptions withSubscribed]. by rewrite Hp.
Qed.

(** X16: while the plugin holds no grouping key, the rebuild and the
    data-set handler do nothing: the grid, and the incoming source, are
    returned as they came. *)
Theorem handlers_without_props (g : Grid) (opts : option ExpandedOptions)
    (data : option (list slot)) :
  hasProps g = false →
  doSourceUpdate svc opts g = g ∧ onDataSet svc data g = (g, data).
Proof.
  intros Hp. unfold doSourceUpdate, onDataSet. rewrite Hp.
  by destruct data as [[|s l]|].
Qed.

(** X17: the data-set handler strips the group headers of the incoming
    source before it builds: an incoming source and the same source with
    its headers removed (where that leaves a record) give the same result.
    It hands the built sequence back through the event and does not write
    the store's source, row items or proxy items; an absent or empty
    incoming source is returned as it came. *)
Theorem onDataSet_strips_headers (g : Grid) (src : list slot) :
  hasProps g = true →
  List.filter (λ s, negb (isGrouping s)) src ≠ [] →
  onDataSet svc (Some src) g
  = onDataSet svc (Some (List.filter (λ s, negb (isGrouping s)) src)) g
  ∧ source (row (onDataSet svc (Some src) g).1) = source (row g)
  ∧ items (row (onDataSet svc (Some src) g).1) = items (row g)
  ∧ proxyItems (row (onDataSet svc (Some src) g).1) = proxyItems (row g)
  ∧ onDataSet svc None g = (g, None)
  ∧ onDataSet svc (Some []) g = (g, Some []).
Proof.
  intros Hp Hne. unfold onDataSet. rewrite Hp. cbn [negb].
  destruct src as [|s l]; [done|].
  destruct (List.filter _ (s :: l)) as [|s' l'] eqn:Hf; [done|].
  rewrite <- Hf, filter_filter_bool. done.
Qed.

(** X18: the sequence the data-set handler hands back depends on the
    incoming source, the plugin's keys and the [grouping] property of the
    grid only: two grids that agree on the options and on that property
    give the same sequence, whatever their row stores hold. *)
Theorem onDataSet_ignores_store (g1 g2 : Grid) (data : option (list slot)) :
  options g1 = options g2 →
  hostGrouping g1 = hostGrouping g2 →
  (onDataSet svc data g1).2 = (onDataSet svc data g2).2.
Proof.
  intros Ho Hh. unfold onDataSet, hasProps, keyFn. rewrite Ho, Hh.
  destruct data as [[|s l]|]; [done| |done].
  by destruct (match options g2 with Some _ => _ | None => _ end).
Qed.

(** X19: applying grouping with keys to a store that has proxy items
    rebuilds at once with the new options: the Builder reads the group path
    of a record through the new keys and gets the records that are no group
    headers in proxy order; as expansion memory it gets the caller's when
    the options carry one, nothing when they carry the key with the value
    undefined, and the memory gathered from the current headers when they
    carry no such key; the default is the caller's.  Its sequence becomes
    the source and its hidden map the grouping namespace. *)
Theorem setGrouping_rebuilds (o : GroupingOptions) (g : Grid)
    (key : string) (keys : list string) :
  props o = Some (key :: keys) →
  proxyItems (row g) ≠ [] →
  let gathered := sg_prevExpanded (getSource (row g) true) in
  let merged := mergeOptions gathered (Some (expandedOptions o)) in
  let res :=
    gatherGrouping svc
      (List.filter (λ m, negb (isGrouping m)) (proxied (row g)))
      (λ item, (λ k, fields item !! k) <$> key :: keys)
      merged in
  source (row (setGrouping svc o g)) = sourceWithGroups res
  ∧ groupingTrimmed (row (setGrouping svc o g)) = gr_trimmed res
  ∧ prevExpanded merged
    = match prevExpanded (expandedOptions o) with
      | Some p => Some p
      | None => if prevExpanded_undefined (expandedOptions o)
                then None else Some gathered
      end
  ∧ defaultExpanded merged = defaultExpanded (expandedOptions o).
Proof.
  intros Hk Hp gathered merged res. unfold setGrouping, noProps. rewrite Hk.
  cbn [row withSubscribed]. rewrite flag_loop_row.
  set (g1 := withOptions o (withSubscribed false g)).
  assert (row g1 = row g) as Hr by done.
  assert (match sg_source (getSource (row g1) false) with
          | [] => g1
          | _ :: _ => doSourceUpdate svc (Some (expandedOptions o)) g1
          end = doSourceUpdate svc (Some (expandedOptions o)) g1) as ->.
  { rewrite getSource_all. unfold proxied. rewrite Hr.
    by destruct (proxyItems (row g)). }
  unfold doSourceUpdate.
  assert (hasProps g1 = true) as ->.
  { unfold hasProps, g1. simpl. by rewrite Hk. }
  cbn [negb]. cbv zeta. rewrite groupingTrimmed_addTrimmed.
  assert (keyFn g1 = λ item, (λ k, fields item !! k) <$> key :: keys) as ->.
  { unfold keyFn, g1. simpl. by rewrite Hk. }
  rewrite Hr, getSource_filtered.
  split; [done|]. split; [done|].
  unfold merged, mergeOptions.
  destruct (prevExpanded (expandedOptions o)); [done|].
  by destruct (prevExpanded_undefined (expandedOptions o)).
Qed.

End Writers.

Lemma onExpand_frame_witness :
  columns (default Scenario.gridA
             (onExpand SpecServices.services Scenario.gridA 3))
    = columns Scenario.gridA
  ∧ refreshed (default Scenario.gridA
                 (onExpand SpecServices.services Scenario.gridA 3))
    = refreshed Scenario.gridA
  ∧ options (default Scenario.gridA
               (onExpand SpecServices.services Scenario.gridA 3))
    = options Scenario.gridA
  ∧ subscribed (default Scenario.gridA
                  (onExpand SpecServices.services Scenario.gridA 3))
    = subscribed Scenario.gridA
  ∧ proxyItems (row (default Scenario.gridA
                       (onExpand SpecServices.services Scenario.gridA 3)))
    = proxyItems (row Scenario.gridA)
  ∧ groupingDepth (row (default Scenario.gridA
                          (onExpand SpecServices.services Scenario.gridA 3)))
    = groupingDepth (row Scenario.gridA).
Proof.
  apply (onExpand_frame SpecServices.services Scenario.gridA
           (default Scenario.gridA
              (onExpand SpecServices.services Scenario.gridA 3)) 3).
  reflexivity.
Defined.

Lemma setGrouping_empty_source_witness :
  row (setGrouping SpecServices.services (Scenario.byRegion None)
         (withRow (λ _, mkRowStore [] [] [] ∅ 0) Scenario.gridColumns))
  = row (withRow (λ _, mkRowStore [] [] [] ∅ 0) Scenario.gridColumns).
Proof.
  apply (setGrouping_empty_source SpecServices.services
           (Scenario.byRegion None)
           (withRow (λ _, mkRowStore [] [] [] ∅ 0) Scenario.gridColumns));
    reflexivity.
Defined.

Lemma handlers_without_props_witness :
  doSourceUpdate SpecServices.services None
    (mkGrid (row Scenario.gridA) Scenario.noColumns None None
       (Some Scenario.noKeys) false [])
  = mkGrid (row Scenario.gridA) Scenario.noColumns None None
      (Some Scenario.noKeys) false []
  ∧ onDataSet SpecServices.services (Some Scenario.flat)
      (mkGrid (row Scenario.gridA) Scenario.noColumns None None
         (Some Scenario.noKeys) false [])
    = (mkGrid (row Scenario.gridA) Scenario.noColumns None None
         (Some Scenario.noKeys) false [],
       Some Scenario.flat).
Proof.
  apply (handlers_without_props SpecServices.services
           (mkGrid (row Scenario.gridA) Scenario.noColumns None None
              (Some Scenario.noKeys) false [])
           None (Some Scenario.flat)).
  reflexivity.
Defined.

Lemma onDataSet_strips_headers_witness :
  onDataSet SpecServices.services (Some Scenario.grouped) Scenario.gridA
  = onDataSet SpecServices.services
      (Some (List.filter (λ s, negb (isGrouping s)) Scenario.grouped))
      Scenario.gridA
  ∧ source (row (onDataSet SpecServices.services (Some Scenario.grouped)
                   Scenario.gridA).1) = source (row Scenario.gridA)
  ∧ items (row (onDataSet SpecServices.services (Some Scenario.grouped)
                  Scenario.gridA).1) = items (row Scenario.gridA)
  ∧ proxyItems (row (onDataSet SpecServices.services (Some Scenario.grouped)
                       Scenario.gridA).1) = proxyItems (row Scenario.gridA)
  ∧ onDataSet SpecServices.services None Scenario.gridA
    = (Scenario.gridA, None)
  ∧ onDataSet SpecServices.services (Some []) Scenario.gridA
    = (Scenario.gridA, Some []).
Proof.
  apply (onDataSet_strips_headers SpecServices.services Scenario.gridA
           Scenario.grouped).
  - reflexivity.
  - simpl. discriminate.
Defined.

Lemma onDataSet_ignores_store_witness :
  (onDataSet SpecServices.services (Some Scenario.flat) Scenario.gridA).2
  = (onDataSet SpecServices.services (Some Scenario.flat)
       (withRow (λ _, row Scenario.gridPermuted) Scenario.gridA)).2.
Proof.
  apply (onDataSet_ignores_store SpecServices.services Scenario.gridA
           (withRow (λ _, row Scenario.gridPermuted) Scenario.gridA)
           (Some Scenario.flat)); reflexivity.
Defined.

(** The rebuild of Scenario C when the options carry the key
    [prevExpanded] with the value undefined: the Builder gets no memory. *)
Lemma setGrouping_rebuilds_witness :
  let g := Scenario.gridSorted in
  let o := mkGroupingOptions (Some [Scenario.region])
             (ExpandedOptionsObject None None true) in
  let gathered := sg_prevExpanded (getSource (row g) true) in
  let merged := mergeOptions gathered (Some (expandedOptions o)) in
  let res :=
    SpecServices.gatherGrouping
      (List.filter (λ m, negb (isGrouping m)) (proxied (row g)))
      (λ item, (λ k, fields item !! k) <$> [Scenario.region])
      merged in
  source (row (setGrouping SpecServices.services o g)) = sourceWithGroups res
  ∧ groupingTrimmed (row (setGrouping SpecServices.services o g))
    = gr_trimmed res
  ∧ prevExpanded merged
    = match prevExpanded (expandedOptions o) with
      | Some p => Some p
      | None => if prevExpanded_undefined (expandedOptions o)
                then None else Some gathered
      end
  ∧ defaultExpanded merged = defaultExpanded (expandedOptions o).
Proof.
  cbv zeta.
  apply (setGrouping_rebuilds SpecServices.services
           (mkGroupingOptions (Some [Scenario.region])
              (ExpandedOptionsObject None None true))
           Scenario.gridSorted Scenario.region []).
  - reflexivity.
  - simpl. discriminate.
Defined.

Lemma filter_none_bool {A} (f : A → bool) (l : list A) :
  Forall (λ x, f x = false) l → List.filter f l = [].
Proof.
  induction 1 as [|x l Hx _ IH]; [done|]. simpl. by rewrite Hx.
Qed.

(** X20: an incoming source that is not empty and holds group headers
    only is not passed through: the data-set handler runs the Builder on
    the empty sequence and hands its result back. *)
Theorem onDataSet_only_headers (svc : Services) (g : Grid)
    (s : slot) (l : list slot) :
  hasProps g = true →
  Forall (λ m, isGrouping m = true) (s :: l) →
  (onDataSet svc (Some (s :: l)) g).2
  = Some (sourceWithGroups
            (gatherGrouping svc [] (keyFn g)
               (match hostGrouping g with
                | Some o => expandedOptions o
                | None => mkExpandedOptions None None
                end))).
Proof.
  intros Hp Hh. unfold onDataSet. rewrite Hp. cbn [negb snd].
  rewrite (filter_none_bool (λ s, negb (isGrouping s)) (s :: l)); [done|].
  eapply Forall_impl; [exact Hh|]. intros m Hm. simpl. by rewrite Hm.
Qed.

Lemma onDataSet_only_headers_witness :
  (onDataSet SpecServices.services
     (Some [Scenario.header "E" true []; Scenario.header "W" false []])
     Scenario.gridA).2
  = Some (sourceWithGroups
            (SpecServices.gatherGrouping [] (keyFn Scenario.gridA)
               (match hostGrouping Scenario.gridA with
                | Some o => expandedOptions o
                | None => mkExpandedOptions None None
                end))).
Proof.
  apply (onDataSet_only_headers SpecServices.services Scenario.gridA
           (Scenario.header "E" true []) [Scenario.header "W" false []]).
  - reflexivity.
  - repeat constructor.
Defined.
